(** * MaskedLanguageModelingReader: the masked-example builder

    A shallow embedding of
    [allennlp/data/dataset_readers/masked_language_modeling.py]
    and the properties of [text_to_instance] and [_read].

    Python values are modelled as follows.
    - [str] is [string]; an optional argument whose default is [None]
      is an [option].
    - [List[...]] is [list]; the positions produced by [enumerate] are [nat].
    - the dictionary handed to [Instance] is a [gmap string Field].
    - a raised exception is the [Raise] case of [result]; statements are
      sequenced with the bind of that error monad. *)

From stdpp Require Import gmap strings list fin_maps pretty sorting.

Local Open Scope string_scope.

(** ** Exceptions and the error monad *)

(** The exception classes the reader meets; [TokenizerError] stands for
    whatever else an injected tokenizer raises. *)
Inductive exception : Type :=
| ValueError (msg : string)
| TypeError (msg : string)
| AttributeError (msg : string)
| NotImplementedError
| TokenizerError (msg : string).

Inductive result (A : Type) : Type :=
| Ok (a : A)
| Raise (e : exception).

Arguments Ok {A} a.
Arguments Raise {A} e.

Definition bind {A B : Type} (r : result A) (k : A → result B) : result B :=
  match r with
  | Ok a => k a
  | Raise e => Raise e
  end.

Notation "x ←! r ; k" := (bind r (λ x, k))
  (at level 20, r at level 100, k at level 200, right associativity,
   format "'[v' x  ←!  r ; '/' k ']'").

Definition succeeds {A : Type} (r : result A) : Prop := ∃ a, r = Ok a.

(** ** Tokens, fields and instances *)

(** Modelled from the spec: [Token] is declared in
    [allennlp.data.tokenizers]; it is an immutable value with a [text]
    attribute and further optional annotations, of which the character
    offset [idx] is kept here.  [Token(t)] sets only the text. *)
Record Token : Type := mkToken { text : string; idx : option nat }.

Definition Token_of_text (t : string) : Token := {| text := t; idx := None |}.

(** Modelled from the spec: a [TokenIndexer] is an indexing capability
    that the reader passes on without looking inside. *)
Inductive TokenIndexer : Type :=
| SingleIdTokenIndexer
| NamedTokenIndexer (name : string).

(** Modelled from the spec: the classes of [allennlp.data.fields] used by
    the reader, as plain containers.  An [IndexField] keeps the sequence
    field its index points into. *)
#[warnings="-register-all"]
Inductive Field : Type :=
| TextField (tokens : list Token) (token_indexers : gmap string TokenIndexer)
| IndexField (sequence_index : nat) (sequence_field : Field)
| ListField (field_list : list Field).

(** [Instance(fields)] wraps the dictionary of named fields. *)
Definition Instance (fields : gmap string Field) : gmap string Field := fields.

(** What the test reads back from an instance:
    [[t.text for t in instance[key]]] and
    [[i.sequence_index for i in instance[key]]]. *)
Definition texts_of (f : Field) : option (list string) :=
  match f with
  | TextField tokens _ => Some (text <$> tokens)
  | _ => None
  end.

Definition sequence_index_of (f : Field) : option nat :=
  match f with
  | IndexField i _ => Some i
  | _ => None
  end.

Definition sequence_indices_of (f : Field) : option (list nat) :=
  match f with
  | ListField field_list => mapM sequence_index_of field_list
  | _ => None
  end.

Definition field_texts (key : string) (inst : gmap string Field) : option (list string) :=
  inst !! key ≫= texts_of.

Definition field_indices (key : string) (inst : gmap string Field) : option (list nat) :=
  inst !! key ≫= sequence_indices_of.

(** ** Tokenizers *)

(** The tokenizer is an injected capability.  [text_to_instance] hands it
    whatever [sentence] is, [None] included, and it may raise.  [truth] is
    the truth value of the tokenizer object, which [__init__] tests: [True]
    unless its class defines [__bool__] or [__len__] otherwise. *)
Record Tokenizer : Type := mkTokenizer {
  tokenize : option string → result (list Token);
  truth : bool
}.

(** The characters [str.split()] treats as separators, within ASCII.  A
    [string] is a sequence of bytes: the white space outside ASCII that
    [str.split()] also splits on (U+0085, U+00A0, U+2003, ...) is not
    modelled, so [str_split] stands for [split] on ASCII sentences. *)
Definition isspace (c : Ascii.ascii) : bool :=
  let n := Ascii.nat_of_ascii c in
  (((9 <=? n) && (n <=? 13)) || ((28 <=? n) && (n <=? 32)))%nat.

(** [sentence.split()]: maximal runs of characters that are not white space. *)
Fixpoint str_split (s : string) (word : string) : list string :=
  match s with
  | EmptyString => if bool_decide (word = "") then [] else [word]
  | String c s' =>
      if isspace c
      then (if bool_decide (word = "") then str_split s' ""
            else word :: str_split s' "")
      else str_split s' (word +:+ String c "")
  end.

(** Modelled from the spec: the default tokenizer,
    [WordTokenizer(word_splitter=JustSpacesWordSplitter())], is a
    whitespace-only splitter: its tokens are exactly the
    whitespace-delimited substrings.  Calling [split] on [None] raises. *)
Definition JustSpacesWordSplitter (sentence : option string) : result (list Token) :=
  match sentence with
  | Some s => Ok (Token_of_text <$> str_split s "")
  | None => Raise (AttributeError "'NoneType' object has no attribute 'split'")
  end.

Definition WordTokenizer (word_splitter : option string → result (list Token)) : Tokenizer :=
  {| tokenize := word_splitter; truth := true |}.

(** ** The reader *)

Record MaskedLanguageModelingReader : Type := mkReader {
  _lazy : bool;
  _tokenizer : Tokenizer;
  _token_indexers : gmap string TokenIndexer
}.

(** [x or d] for a dictionary argument: [None] and the empty dictionary
    are both falsy. *)
Definition dict_or {V : Type} (x : option (gmap string V)) (d : gmap string V) : gmap string V :=
  match x with
  | Some m => if bool_decide (dom m = ∅) then d else m
  | None => d
  end.

(** [x or d] for a tokenizer argument: [None] and a tokenizer object whose
    truth value is [False] are both falsy. *)
Definition tokenizer_or (x : option Tokenizer) (d : Tokenizer) : Tokenizer :=
  match x with
  | Some t => if truth t then t else d
  | None => d
  end.

Definition __init__ (tokenizer : option Tokenizer)
    (token_indexers : option (gmap string TokenIndexer)) (lazy : bool)
    : MaskedLanguageModelingReader :=
  {| _lazy := lazy;
     _tokenizer := tokenizer_or tokenizer (WordTokenizer JustSpacesWordSplitter);
     _token_indexers := dict_or token_indexers {[ "tokens" := SingleIdTokenIndexer ]} |}.

(** [MaskedLanguageModelingReader()] *)
Definition default_reader : MaskedLanguageModelingReader := __init__ None None false.

(** [_read] *)
Definition _read (self : MaskedLanguageModelingReader) (file_path : string)
    : result (list (gmap string Field)) :=
  Raise NotImplementedError.

(** Truth value of an optional list: [None] and [[]] are falsy. *)
Definition truthy {A : Type} (x : option (list A)) : bool :=
  match x with
  | Some (_ :: _) => true
  | _ => false
  end.

(** [len(x)], evaluated only where [x] is a list. *)
Definition len {A : Type} (x : option (list A)) : nat :=
  match x with
  | Some l => length l
  | None => 0
  end.

(** Iterating over an optional list: [None] is not iterable. *)
Definition iter {A : Type} (x : option (list A)) : result (list A) :=
  match x with
  | Some l => Ok l
  | None => Raise (TypeError "'NoneType' object is not iterable")
  end.

Definition enumerate {A : Type} (l : list A) : list (nat * A) :=
  zip (seq 0 (length l)) l.

(** The mask placeholder literal of the scan. *)
Definition MASK : string := "[MASK]".

(** The body of the [for i, token in enumerate(tokens)] loop. *)
Definition scan_step (mask_positions : list nat) (it : nat * Token) : list nat :=
  if bool_decide (text it.2 = MASK) then mask_positions ++ [it.1] else mask_positions.

Definition no_mask_error : exception := ValueError "No [MASK] tokens found!".

Definition target_count_mismatch_error (masks targets : nat) : exception :=
  ValueError ("Found " +:+ pretty masks +:+ " mask tokens and "
              +:+ pretty targets +:+ " targets").

(** [text_to_instance] *)
Definition text_to_instance (self : MaskedLanguageModelingReader)
    (sentence : option string) (tokens : option (list Token))
    (targets : option (list string)) : result (gmap string Field) :=
  tokens ←! (if negb (truthy tokens) then tokenize (_tokenizer self) sentence
             else Ok (default [] tokens));
  let input_field := TextField tokens (_token_indexers self) in
  let mask_positions := foldl scan_step [] (enumerate tokens) in
  if bool_decide (mask_positions = []) then Raise no_mask_error
  else if truthy targets && negb (len targets =? length mask_positions)%nat
  then Raise (target_count_mismatch_error (length mask_positions) (len targets))
  else
    let mask_position_field :=
      ListField ((λ i, IndexField i input_field) <$> mask_positions) in
    targets ←! iter targets;
    let target_field := TextField (Token_of_text <$> targets) (_token_indexers self) in
    Ok (Instance {[ "tokens" := input_field;
                    "mask_positions" := mask_position_field;
                    "target_ids" := target_field ]}).

(** ** Specification-side notions *)

(** The number of tokens whose text is the placeholder. *)
Definition mask_count (tokens : list Token) : nat :=
  length (filter (λ t, text t = MASK) tokens).

(** The positions of the placeholder, as a comprehension over positions. *)
Definition mask_indices (tokens : list Token) : list nat :=
  (filter (λ it, text it.2 = MASK) (enumerate tokens)).*1.

(** Which token sequence reaches the scan: the supplied one when it is
    truthy, the tokenizer's output otherwise. *)
Definition scanned (self : MaskedLanguageModelingReader)
    (sentence : option string) (tokens : option (list Token))
    (toks : list Token) : Prop :=
  (tokens = Some toks ∧ toks ≠ []) ∨
  (truthy tokens = false ∧ tokenize (_tokenizer self) sentence = Ok toks).

(** The bundle returned for the scanned tokens [toks] and the targets [tg]. *)
Definition masked_example (self : MaskedLanguageModelingReader)
    (toks : list Token) (tg : list string) : gmap string Field :=
  let input_field := TextField toks (_token_indexers self) in
  {[ "tokens" := input_field;
     "mask_positions" :=
       ListField ((λ i, IndexField i input_field) <$> mask_indices toks);
     "target_ids" := TextField (Token_of_text <$> tg) (_token_indexers self) ]}.

(** Tokens used in the concrete scenarios. *)
Definition mask_token : Token := Token_of_text "[MASK]".
Definition word (w : string) : Token := Token_of_text w.

Local Close Scope string_scope.

(** * Properties of the scan *)

Section scan.
Implicit Types (tokens : list Token) (acc : list nat) (i k : nat).

Lemma foldl_scan_step acc (its : list (nat * Token)) :
  foldl scan_step acc its = (acc ++ (filter (λ it, text it.2 = MASK) its).*1)%list.
Proof.
  revert acc. induction its as [|it its IH]; intros acc; simpl.
  - by rewrite app_nil_r.
  - rewrite IH, filter_cons. unfold scan_step.
    case_bool_decide; case_decide; try done.
    by rewrite <- app_assoc.
Qed.

Lemma scan_mask_indices tokens :
  foldl scan_step [] (enumerate tokens) = mask_indices tokens.
Proof. by rewrite foldl_scan_step. Qed.

Lemma length_filter_enum k tokens :
  length (filter (λ it : nat * Token, text it.2 = MASK) (zip (seq k (length tokens)) tokens))
  = mask_count tokens.
Proof.
  unfold mask_count. revert k.
  induction tokens as [|t tokens IH]; intros k; simpl; [done|].
  rewrite !filter_cons; simpl.
  case_decide; simpl; by rewrite IH.
Qed.

Lemma length_mask_indices tokens :
  length (mask_indices tokens) = mask_count tokens.
Proof. unfold mask_indices, enumerate. by rewrite length_fmap, length_filter_enum. Qed.

Lemma elem_of_filter_enum k tokens i :
  i ∈ (filter (λ it : nat * Token, text it.2 = MASK) (zip (seq k (length tokens)) tokens)).*1
  ↔ k ≤ i ∧ ∃ t, tokens !! (i - k) = Some t ∧ text t = MASK.
Proof.
  revert k. induction tokens as [|t tokens IH]; intros k; simpl.
  - split; [by intros ?%elem_of_nil|].
    by intros (_ & t & ? & _).
  - rewrite filter_cons; simpl.
    assert (i ∈ (filter (λ it : nat * Token, text it.2 = MASK)
                   (zip (seq (S k) (length tokens)) tokens)).*1
            ↔ k < i ∧ ∃ t', (t :: tokens) !! (i - k) = Some t' ∧ text t' = MASK) as Htl.
    { rewrite IH. split.
      - intros (Hle & t' & Hl & Ht). split; [lia|]. exists t'. split; [|done].
        replace (i - k) with (S (i - S k)) by lia. done.
      - intros (Hlt & t' & Hl & Ht). split; [lia|]. exists t'. split; [|done].
        replace (i - k) with (S (i - S k)) in Hl by lia. done. }
    case_decide as Hm; simpl.
    + rewrite elem_of_cons, Htl. split.
      * intros [-> | (Hlt & Hex)]; [|split; [lia|done]].
        split; [lia|]. exists t. by rewrite Nat.sub_diag.
      * intros (Hle & Hex). destruct (decide (i = k)) as [->|]; [by left|].
        right. split; [lia|done].
    + rewrite Htl. split.
      * intros (Hlt & Hex). split; [lia|done].
      * intros (Hle & t' & Hl & Ht). split; [|by exists t'].
        destruct (decide (i = k)) as [->|]; [|lia].
        rewrite Nat.sub_diag in Hl. simpl in Hl. by simplify_eq.
Qed.

Lemma elem_of_mask_indices tokens i :
  i ∈ mask_indices tokens ↔ ∃ t, tokens !! i = Some t ∧ text t = MASK.
Proof.
  unfold mask_indices, enumerate. rewrite elem_of_filter_enum, Nat.sub_0_r.
  split; [by intros [_ ?]|]. intros ?; split; [lia|done].
Qed.

Lemma sorted_filter_enum k tokens :
  StronglySorted lt
    (filter (λ it : nat * Token, text it.2 = MASK) (zip (seq k (length tokens)) tokens)).*1.
Proof.
  revert k. induction tokens as [|t tokens IH]; intros k; simpl.
  - constructor.
  - rewrite filter_cons; simpl. case_decide; simpl; [|apply IH].
    constructor; [apply IH|].
    apply Forall_forall. intros i Hi.
    apply elem_of_filter_enum in Hi as [Hle _]. lia.
Qed.

Lemma sorted_mask_indices tokens : StronglySorted lt (mask_indices tokens).
Proof. apply sorted_filter_enum. Qed.

Lemma mask_indices_nil_iff tokens : mask_indices tokens = [] ↔ mask_count tokens = 0.
Proof. rewrite <- length_mask_indices. split; [by intros ->|apply nil_length_inv]. Qed.

Lemma mask_count_pos_nonempty tokens : mask_count tokens ≠ 0 → tokens ≠ [].
Proof. by intros H ->. Qed.
End scan.

(** * Outcomes of [text_to_instance] *)

Section outcomes.
Context (self : MaskedLanguageModelingReader).
Implicit Types (sentence : option string) (tokens : option (list Token)).
Implicit Types (targets : option (list string)) (toks : list Token).
Implicit Types (tg : list string).

Lemma scanned_supplied sentence toks :
  toks ≠ [] → scanned self sentence (Some toks) toks.
Proof. by left. Qed.

Lemma scanned_inv sentence tokens toks :
  scanned self sentence tokens toks →
  (if negb (truthy tokens) then tokenize (_tokenizer self) sentence
   else Ok (default [] tokens)) = Ok toks.
Proof.
  intros [[-> Hne] | [-> ->]]; [|done].
  by destruct toks.
Qed.

Lemma text_to_instance_tokenizer_raises sentence tokens targets e :
  truthy tokens = false →
  tokenize (_tokenizer self) sentence = Raise e →
  text_to_instance self sentence tokens targets = Raise e.
Proof. intros Hf He. unfold text_to_instance. by rewrite Hf, He. Qed.

Lemma text_to_instance_no_mask sentence tokens targets toks :
  scanned self sentence tokens toks →
  mask_count toks = 0 →
  text_to_instance self sentence tokens targets = Raise no_mask_error.
Proof.
  intros Hs%scanned_inv H0. unfold text_to_instance.
  rewrite Hs. cbn [bind]. rewrite scan_mask_indices.
  by rewrite bool_decide_eq_true_2 by by apply mask_indices_nil_iff.
Qed.

Lemma text_to_instance_mismatch sentence tokens toks tg :
  scanned self sentence tokens toks →
  mask_count toks ≠ 0 →
  tg ≠ [] →
  length tg ≠ mask_count toks →
  text_to_instance self sentence tokens (Some tg)
  = Raise (target_count_mismatch_error (mask_count toks) (length tg)).
Proof.
  intros Hs%scanned_inv Hm Hne Hlen. unfold text_to_instance.
  rewrite Hs. cbn [bind]. rewrite scan_mask_indices.
  rewrite bool_decide_eq_false_2 by by rewrite mask_indices_nil_iff.
  rewrite length_mask_indices.
  destruct tg as [|t tg]; [done|]. cbn [truthy len andb].
  by rewrite (proj2 (Nat.eqb_neq _ _) Hlen).
Qed.

Lemma text_to_instance_targets_omitted sentence tokens toks :
  scanned self sentence tokens toks →
  mask_count toks ≠ 0 →
  text_to_instance self sentence tokens None
  = Raise (TypeError "'NoneType' object is not iterable").
Proof.
  intros Hs%scanned_inv Hm. unfold text_to_instance.
  rewrite Hs. cbn [bind]. rewrite scan_mask_indices.
  by rewrite bool_decide_eq_false_2 by by rewrite mask_indices_nil_iff.
Qed.

Lemma text_to_instance_ok sentence tokens toks tg :
  scanned self sentence tokens toks →
  mask_count toks ≠ 0 →
  tg = [] ∨ length tg = mask_count toks →
  text_to_instance self sentence tokens (Some tg) = Ok (masked_example self toks tg).
Proof.
  intros Hs%scanned_inv Hm Htg. unfold text_to_instance.
  rewrite Hs. cbn [bind]. rewrite scan_mask_indices.
  rewrite bool_decide_eq_false_2 by by rewrite mask_indices_nil_iff.
  rewrite length_mask_indices.
  destruct Htg as [-> | Hlen]; [done|].
  rewrite andb_false_intro2; [done|].
  apply negb_false_iff, Nat.eqb_eq. by destruct tg.
Qed.

(** Every call either fails in the tokenizer or scans some [toks]. *)
Lemma scanned_cases sentence tokens :
  (∃ toks, scanned self sentence tokens toks) ∨
  (∃ e, truthy tokens = false ∧ tokenize (_tokenizer self) sentence = Raise e).
Proof.
  destruct tokens as [[|t toks]|].
  - destruct (tokenize (_tokenizer self) sentence) as [toks|e] eqn:E.
    + left. exists toks. by right.
    + right. by exists e.
  - left. exists (t :: toks). by left.
  - destruct (tokenize (_tokenizer self) sentence) as [toks|e] eqn:E.
    + left. exists toks. by right.
    + right. by exists e.
Qed.

(** A returned bundle is [masked_example] of the scanned tokens. *)
Lemma text_to_instance_ok_inv sentence tokens targets inst :
  text_to_instance self sentence tokens targets = Ok inst →
  ∃ toks tg, scanned self sentence tokens toks ∧ targets = Some tg ∧
             mask_count toks ≠ 0 ∧ (tg = [] ∨ length tg = mask_count toks) ∧
             inst = masked_example self toks tg.
Proof.
  intros Hok.
  destruct (scanned_cases sentence tokens) as [[toks Hs] | (e & Hf & He)]; cycle 1.
  { by rewrite (text_to_instance_tokenizer_raises _ _ _ e) in Hok. }
  destruct (decide (mask_count toks = 0)) as [H0|Hm].
  { by rewrite (text_to_instance_no_mask _ _ _ toks) in Hok. }
  destruct targets as [tg|]; cycle 1.
  { by rewrite (text_to_instance_targets_omitted _ _ toks) in Hok. }
  exists toks, tg.
  destruct (decide (tg = [])) as [->|Hne].
  { rewrite (text_to_instance_ok _ _ toks []) in Hok by auto.
    simplify_eq. split_and!; auto. }
  destruct (decide (length tg = mask_count toks)) as [Hlen|Hlen].
  { rewrite (text_to_instance_ok _ _ toks tg) in Hok by auto.
    simplify_eq. split_and!; auto. }
  by rewrite (text_to_instance_mismatch _ _ toks tg) in Hok.
Qed.

(** Reading the bundle back. *)
Lemma masked_example_tokens toks tg :
  masked_example self toks tg !! "tokens"%string
  = Some (TextField toks (_token_indexers self)).
Proof. unfold masked_example. by simplify_map_eq. Qed.

Lemma masked_example_mask_positions toks tg :
  masked_example self toks tg !! "mask_positions"%string
  = Some (ListField ((λ i, IndexField i (TextField toks (_token_indexers self)))
                       <$> mask_indices toks)).
Proof. unfold masked_example. by simplify_map_eq. Qed.

Lemma masked_example_target_ids toks tg :
  masked_example self toks tg !! "target_ids"%string
  = Some (TextField (Token_of_text <$> tg) (_token_indexers self)).
Proof. unfold masked_example. by simplify_map_eq. Qed.

Lemma mapM_sequence_index_of (f : Field) (l : list nat) :
  mapM sequence_index_of ((λ i, IndexField i f) <$> l) = Some l.
Proof. induction l as [|i l IH]; [done|]. rewrite fmap_cons. cbn [mapM]. by rewrite IH. Qed.

Lemma field_texts_tokens toks tg :
  field_texts "tokens" (masked_example self toks tg) = Some (text <$> toks).
Proof. unfold field_texts. by rewrite masked_example_tokens. Qed.

Lemma field_indices_mask_positions toks tg :
  field_indices "mask_positions" (masked_example self toks tg) = Some (mask_indices toks).
Proof.
  unfold field_indices. rewrite masked_example_mask_positions. simpl.
  apply mapM_sequence_index_of.
Qed.

Lemma field_texts_target_ids toks tg :
  field_texts "target_ids" (masked_example self toks tg) = Some tg.
Proof.
  unfold field_texts. rewrite masked_example_target_ids. simpl.
  f_equal. rewrite <- list_fmap_compose. by rewrite list_fmap_id.
Qed.
End outcomes.

(** The two validation errors are both [ValueError]s; their messages differ. *)
Lemma no_mask_error_not_mismatch (m k : nat) :
  no_mask_error ≠ target_count_mismatch_error m k.
Proof.
  unfold no_mask_error, target_count_mismatch_error.
  intros H. injection H as H. discriminate H.
Qed.

(** * The claims *)

Local Open Scope string_scope.

(** C1. Calling [text_to_instance] with tokens that contain the placeholder
    and with [targets] omitted does not return a bundle: on the tokens
    [a [MASK] b c [MASK]] (placeholders at positions 1 and 4) the list
    comprehension over [targets] raises [TypeError], after both validation
    checks have passed. *)
Theorem text_to_instance_without_targets_raises :
  mask_count [word "a"; mask_token; word "b"; word "c"; mask_token] = 2 ∧
  text_to_instance default_reader None
    (Some [word "a"; mask_token; word "b"; word "c"; mask_token]) None
  = Raise (TypeError "'NoneType' object is not iterable").
Proof.
  split; [reflexivity|].
  apply (text_to_instance_targets_omitted default_reader None _
           [word "a"; mask_token; word "b"; word "c"; mask_token]).
  - by left.
  - by vm_compute.
Qed.

(** C2. With one placeholder and [targets = []] the counts differ (1 and
    0), yet [text_to_instance] raises no target-count-mismatch error: the
    truth test of line 79 skips the comparison for the empty list, and the
    call returns a bundle with one mask position and no target, against
    the class docstring's "the mask position and target token lists are the
    same length". *)
Theorem empty_targets_no_mismatch :
  mask_count [mask_token] = 1 ∧
  length ([] : list string) ≠ mask_count [mask_token] ∧
  text_to_instance default_reader None (Some [mask_token]) (Some [])
  = Ok (masked_example default_reader [mask_token] []) ∧
  field_indices "mask_positions" (masked_example default_reader [mask_token] [])
  = Some [0] ∧
  field_texts "target_ids" (masked_example default_reader [mask_token] [])
  = Some [] ∧
  ∀ m k, text_to_instance default_reader None (Some [mask_token]) (Some [])
         ≠ Raise (target_count_mismatch_error m k).
Proof.
  assert (text_to_instance default_reader None (Some [mask_token]) (Some [])
          = Ok (masked_example default_reader [mask_token] [])) as E.
  { apply text_to_instance_ok; [by left|by vm_compute|by left]. }
  split_and!; [by vm_compute|by vm_compute|done| | |].
  - by rewrite field_indices_mask_positions.
  - by rewrite field_texts_target_ids.
  - intros m k. by rewrite E.
Qed.

(** X10. The check of line 79 on non-empty targets: for tokens with a
    nonzero number [m] of placeholders and a supplied, non-empty [targets]
    list whose length [k] differs from [m], [text_to_instance] raises the
    target-count-mismatch error, whose message carries both counts; nothing
    is returned. *)
Theorem text_to_instance_target_count_mismatch
    (self : MaskedLanguageModelingReader) (sentence : option string)
    (toks : list Token) (tg : list string) :
  mask_count toks ≠ 0 →
  tg ≠ [] →
  length tg ≠ mask_count toks →
  text_to_instance self sentence (Some toks) (Some tg)
  = Raise (target_count_mismatch_error (mask_count toks) (length tg)) ∧
  ¬ succeeds (text_to_instance self sentence (Some toks) (Some tg)).
Proof.
  intros Hm Hne Hlen.
  assert (text_to_instance self sentence (Some toks) (Some tg)
          = Raise (target_count_mismatch_error (mask_count toks) (length tg))) as E.
  { apply text_to_instance_mismatch; [|done..].
    by apply scanned_supplied, mask_count_pos_nonempty. }
  split; [done|]. intros [inst Hinst]. by rewrite E in Hinst.
Qed.

Lemma text_to_instance_target_count_mismatch_witness :
  text_to_instance default_reader None (Some [mask_token]) (Some ["a"; "b"])
  = Raise (ValueError "Found 1 mask tokens and 2 targets").
Proof.
  apply (text_to_instance_target_count_mismatch default_reader None
           [mask_token] ["a"; "b"]).
  - vm_compute. lia.
  - discriminate.
  - vm_compute. lia.
Defined.

(** C3, as stated, fails for an empty supplied token list: the tokenizer is
    then run on [sentence], so two sentences give two outcomes. *)
Lemma empty_tokens_sentence_observable :
  text_to_instance default_reader (Some "[MASK]") (Some []) (Some ["a"])
  = Ok (masked_example default_reader [mask_token] ["a"]) ∧
  text_to_instance default_reader (Some "x") (Some []) (Some ["a"])
  = Raise no_mask_error ∧
  text_to_instance default_reader (Some "[MASK]") (Some []) (Some ["a"])
  ≠ text_to_instance default_reader (Some "x") (Some []) (Some ["a"]).
Proof.
  assert (text_to_instance default_reader (Some "[MASK]") (Some []) (Some ["a"])
          = Ok (masked_example default_reader [mask_token] ["a"])) as E1.
  { apply text_to_instance_ok; [by right|by vm_compute|by right]. }
  assert (text_to_instance default_reader (Some "x") (Some []) (Some ["a"])
          = Raise no_mask_error) as E2.
  { by apply (text_to_instance_no_mask _ _ _ _ [word "x"]); [right|]. }
  split_and!; [done|done|]. by rewrite E1, E2.
Qed.

(** C3, amended. When [tokens] is supplied and non-empty, the outcome of
    [text_to_instance] (the bundle or the error) is the same for any two
    values of [sentence]. *)
Theorem text_to_instance_sentence_ignored
    (self : MaskedLanguageModelingReader) (sentence1 sentence2 : option string)
    (toks : list Token) (targets : option (list string)) :
  toks ≠ [] →
  text_to_instance self sentence1 (Some toks) targets
  = text_to_instance self sentence2 (Some toks) targets.
Proof. intros Hne. by destruct toks. Qed.

Lemma text_to_instance_sentence_ignored_witness :
  text_to_instance default_reader (Some "x") (Some [mask_token]) (Some ["a"])
  = text_to_instance default_reader (Some "[MASK] [MASK]") (Some [mask_token]) (Some ["a"]).
Proof.
  apply (text_to_instance_sentence_ignored default_reader
           (Some "x") (Some "[MASK] [MASK]") [mask_token] (Some ["a"])).
  discriminate.
Defined.

(** C4, as stated, fails when the tokens hold no placeholder: an empty
    [targets] list then has the matching length 0, and the call raises the
    no-mask error. *)
Lemma matching_targets_without_mask_fail :
  length ([] : list string) = mask_count [word "a"] ∧
  text_to_instance default_reader None (Some [word "a"]) (Some [])
  = Raise no_mask_error ∧
  ¬ succeeds (text_to_instance default_reader None (Some [word "a"]) (Some [])).
Proof.
  assert (text_to_instance default_reader None (Some [word "a"]) (Some [])
          = Raise no_mask_error) as E.
  { by apply (text_to_instance_no_mask _ _ _ _ [word "a"]); [left|]. }
  split_and!; [done|done|]. intros [inst Hinst]. by rewrite E in Hinst.
Qed.

(** C4, amended. For tokens with at least one placeholder and a supplied
    [targets] list whose length equals the number of placeholders,
    [text_to_instance] returns a bundle, and the texts of its [target_ids]
    are the [targets], element by element and in order. *)
Theorem text_to_instance_target_ids
    (self : MaskedLanguageModelingReader) (sentence : option string)
    (toks : list Token) (tg : list string) :
  mask_count toks ≠ 0 →
  length tg = mask_count toks →
  ∃ inst, text_to_instance self sentence (Some toks) (Some tg) = Ok inst ∧
          field_texts "target_ids" inst = Some tg.
Proof.
  intros Hm Hlen. exists (masked_example self toks tg). split.
  - apply text_to_instance_ok; [|done|by right].
    by apply scanned_supplied, mask_count_pos_nonempty.
  - apply field_texts_target_ids.
Qed.

Lemma text_to_instance_target_ids_witness :
  ∃ inst,
    text_to_instance default_reader None
      (Some [mask_token; word "and"; mask_token]) (Some ["a"; "b"]) = Ok inst ∧
    field_texts "target_ids" inst = Some ["a"; "b"].
Proof.
  apply (text_to_instance_target_ids default_reader None
           [mask_token; word "and"; mask_token] ["a"; "b"]).
  - vm_compute. lia.
  - reflexivity.
Defined.

(** C5, as stated, fails for the empty token list, which holds no
    placeholder: the tokenizer is run on [sentence] instead, and the call
    returns a bundle when the sentence has a placeholder. *)
Lemma empty_tokens_no_mask_error_missed :
  mask_count [] = 0 ∧
  text_to_instance default_reader (Some "[MASK]") (Some []) (Some ["a"])
  = Ok (masked_example default_reader [mask_token] ["a"]) ∧
  text_to_instance default_reader (Some "[MASK]") (Some []) (Some ["a"])
  ≠ Raise no_mask_error.
Proof.
  assert (text_to_instance default_reader (Some "[MASK]") (Some []) (Some ["a"])
          = Ok (masked_example default_reader [mask_token] ["a"])) as E.
  { apply text_to_instance_ok; [by right|by vm_compute|by right]. }
  split_and!; [done|done|]. by rewrite E.
Qed.

(** C5, amended. For every non-empty token list without a placeholder,
    [text_to_instance] raises the no-mask error, whether [targets] is
    omitted or supplied and whatever its length; the error differs from
    every target-count-mismatch error. *)
Theorem text_to_instance_no_mask_error
    (self : MaskedLanguageModelingReader) (sentence : option string)
    (toks : list Token) (targets : option (list string)) :
  toks ≠ [] →
  mask_count toks = 0 →
  text_to_instance self sentence (Some toks) targets = Raise no_mask_error ∧
  ∀ m k, text_to_instance self sentence (Some toks) targets
         ≠ Raise (target_count_mismatch_error m k).
Proof.
  intros Hne H0.
  assert (text_to_instance self sentence (Some toks) targets = Raise no_mask_error) as E.
  { apply (text_to_instance_no_mask _ _ _ _ toks); [by left|done]. }
  split; [done|]. intros m k. rewrite E. intros H.
  apply (no_mask_error_not_mismatch m k). congruence.
Qed.

Lemma text_to_instance_no_mask_error_witness :
  text_to_instance default_reader None (Some [word "a"; word "b"]) (Some ["x"; "y"; "z"])
  = Raise (ValueError "No [MASK] tokens found!").
Proof.
  apply (text_to_instance_no_mask_error default_reader None
           [word "a"; word "b"] (Some ["x"; "y"; "z"])).
  - discriminate.
  - reflexivity.
Defined.

(** C6, as stated, fails on the size of the literal: the placeholder the
    scan compares with has 6 characters, not 7.  On the single token
    [[MASK]] position 0 is listed, and the text there has length 6. *)
Lemma mask_literal_not_seven_characters :
  ∃ inst,
    text_to_instance default_reader None (Some [mask_token]) (Some ["a"]) = Ok inst ∧
    field_indices "mask_positions" inst = Some [0] ∧
    field_texts "tokens" inst = Some [MASK] ∧
    String.length MASK = 6 ∧
    String.length MASK ≠ 7.
Proof.
  exists (masked_example default_reader [mask_token] ["a"]). split_and!.
  - apply text_to_instance_ok; [by left|by vm_compute|by right].
  - by rewrite field_indices_mask_positions.
  - by rewrite field_texts_tokens.
  - reflexivity.
  - vm_compute. lia.
Qed.

(** C6, amended. Whenever [text_to_instance] returns a bundle, its
    [mask_positions] lists, left to right, exactly the zero-based positions
    [i] of the returned [tokens] whose text is the 6-character literal
    [[MASK]]: every listed position holds the placeholder, every placeholder
    is listed, the positions increase strictly, and they are positions of
    the scanned token sequence itself (the supplied one, or the tokenizer's
    output), each index field pointing into that same text field. *)
Theorem text_to_instance_mask_positions
    (self : MaskedLanguageModelingReader) (sentence : option string)
    (tokens : option (list Token)) (targets : option (list string))
    (inst : gmap string Field) :
  text_to_instance self sentence tokens targets = Ok inst →
  ∃ (toks : list Token) (positions : list nat),
    scanned self sentence tokens toks ∧
    inst !! "tokens" = Some (TextField toks (_token_indexers self)) ∧
    inst !! "mask_positions"
    = Some (ListField ((λ i, IndexField i (TextField toks (_token_indexers self)))
                         <$> positions)) ∧
    field_indices "mask_positions" inst = Some positions ∧
    (∀ i, i ∈ positions ↔ ∃ t, toks !! i = Some t ∧ text t = MASK) ∧
    StronglySorted lt positions ∧
    String.length MASK = 6.
Proof.
  intros (toks & tg & Hs & _ & _ & _ & ->)%text_to_instance_ok_inv.
  exists toks, (mask_indices toks). split_and!.
  - done.
  - apply masked_example_tokens.
  - apply masked_example_mask_positions.
  - apply field_indices_mask_positions.
  - apply elem_of_mask_indices.
  - apply sorted_mask_indices.
  - reflexivity.
Qed.

Lemma text_to_instance_mask_positions_witness :
  let supplied := [word "a"; mask_token; word "b"; word "c"; mask_token] in
  let inst := masked_example default_reader supplied [] in
  text_to_instance default_reader None (Some supplied) (Some []) = Ok inst ∧
  ∃ (toks : list Token) (positions : list nat),
    scanned default_reader None (Some supplied) toks ∧
    inst !! "tokens" = Some (TextField toks (_token_indexers default_reader)) ∧
    inst !! "mask_positions"
    = Some (ListField ((λ i, IndexField i (TextField toks (_token_indexers default_reader)))
                         <$> positions)) ∧
    field_indices "mask_positions" inst = Some positions ∧
    (∀ i, i ∈ positions ↔ ∃ t, toks !! i = Some t ∧ text t = MASK) ∧
    StronglySorted lt positions ∧
    String.length MASK = 6.
Proof.
  intros supplied inst.
  assert (text_to_instance default_reader None (Some supplied) (Some []) = Ok inst) as E.
  { vm_compute. reflexivity. }
  split; [exact E|].
  exact (text_to_instance_mask_positions default_reader None
           (Some supplied) (Some []) inst E).
Defined.

(** C7. With the default configuration, the call with
    [sentence = "This is a [MASK] token ."] and [targets = ["This"]]
    returns a bundle whose tokens read [This is a [MASK] token .], whose
    [mask_positions] is [[3]] and whose [target_ids] reads [["This"]]. *)
Theorem text_to_instance_with_basic_tokenizer_and_indexer :
  ∃ inst,
    text_to_instance (__init__ None None false)
      (Some "This is a [MASK] token .") None (Some ["This"]) = Ok inst ∧
    field_texts "tokens" inst = Some ["This"; "is"; "a"; "[MASK]"; "token"; "."] ∧
    field_indices "mask_positions" inst = Some [3] ∧
    field_texts "target_ids" inst = Some ["This"] ∧
    dom inst = {[ "tokens"; "mask_positions"; "target_ids" ]}.
Proof.
  eexists. split; [by vm_compute|].
  split_and!; by vm_compute.
Qed.

(** C8. For every file path, [_read] raises [NotImplementedError], which
    is neither the no-mask error nor a target-count-mismatch error, and it
    yields no examples. *)
Theorem read_not_implemented
    (self : MaskedLanguageModelingReader) (file_path : string) :
  _read self file_path = Raise NotImplementedError ∧
  NotImplementedError ≠ no_mask_error ∧
  (∀ m k, NotImplementedError ≠ target_count_mismatch_error m k) ∧
  ¬ succeeds (_read self file_path).
Proof.
  split_and!; [done|done|done|].
  by intros [examples ?].
Qed.

(** C9. A supplied but empty [tokens] list is treated as an absent one:
    the call has the outcome of the call with [tokens] omitted, the
    tokenizer is run on [sentence], its failure is the failure of the call,
    and its output [toks] is what the call proceeds with: [toks] is what is
    scanned for placeholders and counted against the targets, and a
    returned bundle holds [toks] as its tokens and the positions of the
    placeholders of [toks]. *)
Theorem text_to_instance_empty_tokens
    (self : MaskedLanguageModelingReader) (sentence : option string)
    (targets : option (list string)) :
  text_to_instance self sentence (Some []) targets
  = text_to_instance self sentence None targets ∧
  (∀ e, tokenize (_tokenizer self) sentence = Raise e →
        text_to_instance self sentence (Some []) targets = Raise e) ∧
  (∀ toks, tokenize (_tokenizer self) sentence = Ok toks →
           scanned self sentence (Some []) toks ∧
           (toks ≠ [] →
            text_to_instance self sentence (Some []) targets
            = text_to_instance self sentence (Some toks) targets) ∧
           (toks = [] →
            text_to_instance self sentence (Some []) targets = Raise no_mask_error)) ∧
  (∀ toks, tokenize (_tokenizer self) sentence = Ok toks →
     (mask_count toks = 0 →
      text_to_instance self sentence (Some []) targets = Raise no_mask_error) ∧
     (mask_count toks ≠ 0 → targets = None →
      text_to_instance self sentence (Some []) targets
      = Raise (TypeError "'NoneType' object is not iterable")) ∧
     (∀ tg, mask_count toks ≠ 0 → targets = Some tg →
        (tg ≠ [] → length tg ≠ mask_count toks →
         text_to_instance self sentence (Some []) targets
         = Raise (target_count_mismatch_error (mask_count toks) (length tg))) ∧
        (tg = [] ∨ length tg = mask_count toks →
         ∃ inst,
           text_to_instance self sentence (Some []) targets = Ok inst ∧
           inst = masked_example self toks tg ∧
           inst !! "tokens" = Some (TextField toks (_token_indexers self)) ∧
           field_texts "tokens" inst = Some (text <$> toks) ∧
           field_indices "mask_positions" inst
           = Some (foldl scan_step [] (enumerate toks)) ∧
           field_texts "target_ids" inst = Some tg))).
Proof.
  split_and!.
  - done.
  - intros e He. by apply text_to_instance_tokenizer_raises.
  - intros toks Htok. split_and!.
    + by right.
    + intros Hne. unfold text_to_instance. cbn [truthy negb]. rewrite Htok.
      by destruct toks.
    + intros ->. by apply (text_to_instance_no_mask _ _ _ _ []); [right|].
  - intros toks Htok.
    assert (scanned self sentence (Some []) toks) as Hs by by right.
    split_and!.
    + intros H0. by apply (text_to_instance_no_mask _ _ _ _ toks).
    + intros Hm ->. by apply (text_to_instance_targets_omitted _ _ _ toks).
    + intros tg Hm ->. split.
      * intros Hne Hlen. by apply text_to_instance_mismatch.
      * intros Hok. exists (masked_example self toks tg). split_and!.
        -- by apply text_to_instance_ok.
        -- done.
        -- apply masked_example_tokens.
        -- apply field_texts_tokens.
        -- rewrite scan_mask_indices. apply field_indices_mask_positions.
        -- apply field_texts_target_ids.
Qed.

(** C10. With [targets] supplied as the empty list the target count is not
    checked: for tokens with at least one placeholder the call raises no
    target-count-mismatch error and returns a bundle whose [target_ids] is
    empty while its [mask_positions] is not. *)
Theorem text_to_instance_empty_targets
    (self : MaskedLanguageModelingReader) (sentence : option string)
    (toks : list Token) :
  mask_count toks ≠ 0 →
  ∃ inst positions,
    text_to_instance self sentence (Some toks) (Some []) = Ok inst ∧
    (∀ m k, text_to_instance self sentence (Some toks) (Some [])
            ≠ Raise (target_count_mismatch_error m k)) ∧
    inst !! "target_ids" = Some (TextField [] (_token_indexers self)) ∧
    field_texts "target_ids" inst = Some [] ∧
    field_indices "mask_positions" inst = Some positions ∧
    positions ≠ [] ∧
    length positions = mask_count toks.
Proof.
  intros Hm.
  assert (text_to_instance self sentence (Some toks) (Some [])
          = Ok (masked_example self toks [])) as E.
  { apply text_to_instance_ok; [|done|by left].
    by apply scanned_supplied, mask_count_pos_nonempty. }
  exists (masked_example self toks []), (mask_indices toks). split_and!.
  - done.
  - intros m k. by rewrite E.
  - apply masked_example_target_ids.
  - apply field_texts_target_ids.
  - apply field_indices_mask_positions.
  - by rewrite mask_indices_nil_iff.
  - apply length_mask_indices.
Qed.

Lemma text_to_instance_empty_targets_witness :
  ∃ inst positions,
    text_to_instance default_reader None
      (Some [word "a"; mask_token; word "b"; word "c"; mask_token]) (Some []) = Ok inst ∧
    (∀ m k, text_to_instance default_reader None
              (Some [word "a"; mask_token; word "b"; word "c"; mask_token]) (Some [])
            ≠ Raise (target_count_mismatch_error m k)) ∧
    inst !! "target_ids" = Some (TextField [] (_token_indexers default_reader)) ∧
    field_texts "target_ids" inst = Some [] ∧
    field_indices "mask_positions" inst = Some positions ∧
    positions ≠ [] ∧
    length positions = 2.
Proof.
  apply (text_to_instance_empty_targets default_reader None
           [word "a"; mask_token; word "b"; word "c"; mask_token]).
  vm_compute. lia.
Defined.

(** * Further properties of the reader *)

(** ** When [text_to_instance] returns, and how it fails *)

(** X1. [text_to_instance] returns a bundle exactly when some token
    sequence reaches the scan (the supplied non-empty one, or the
    tokenizer's output), it holds a placeholder, and [targets] is supplied
    and is either empty or as long as the number of placeholders. *)
Theorem text_to_instance_succeeds_iff
    (self : MaskedLanguageModelingReader) (sentence : option string)
    (tokens : option (list Token)) (targets : option (list string)) :
  succeeds (text_to_instance self sentence tokens targets) ↔
  ∃ toks tg, scanned self sentence tokens toks ∧ targets = Some tg ∧
             mask_count toks ≠ 0 ∧ (tg = [] ∨ length tg = mask_count toks).
Proof.
  split.
  - intros [inst (toks & tg & Hs & Ht & Hm & Hlen & _)%text_to_instance_ok_inv].
    by exists toks, tg.
  - intros (toks & tg & Hs & -> & Hm & Hlen).
    exists (masked_example self toks tg). by apply text_to_instance_ok.
Qed.

(** X2. Every failure of [text_to_instance] is one of four: the tokenizer's
    own exception (only when [tokens] is absent or empty); the no-mask
    error, when the scanned tokens hold no placeholder; the
    target-count-mismatch error with both counts, when [targets] is
    non-empty and of another length; or the [TypeError] of iterating over
    omitted [targets]. *)
Theorem text_to_instance_failures
    (self : MaskedLanguageModelingReader) (sentence : option string)
    (tokens : option (list Token)) (targets : option (list string))
    (e : exception) :
  text_to_instance self sentence tokens targets = Raise e →
  (truthy tokens = false ∧ tokenize (_tokenizer self) sentence = Raise e) ∨
  ∃ toks, scanned self sentence tokens toks ∧
    ((mask_count toks = 0 ∧ e = no_mask_error) ∨
     (mask_count toks ≠ 0 ∧
      ∃ tg, targets = Some tg ∧ tg ≠ [] ∧ length tg ≠ mask_count toks ∧
            e = target_count_mismatch_error (mask_count toks) (length tg)) ∨
     (mask_count toks ≠ 0 ∧ targets = None ∧
      e = TypeError "'NoneType' object is not iterable")).
Proof.
  intros He.
  destruct (scanned_cases self sentence tokens) as [[toks Hs] | (e' & Hf & He')].
  - right. exists toks. split; [done|].
    destruct (decide (mask_count toks = 0)) as [H0|Hm].
    { left. rewrite (text_to_instance_no_mask _ _ _ _ toks) in He by done.
      split; [done|congruence]. }
    right. destruct targets as [tg|].
    + left. split; [done|]. exists tg.
      destruct (decide (tg = [])) as [->|Hne].
      { by rewrite (text_to_instance_ok _ _ _ toks []) in He by auto. }
      destruct (decide (length tg = mask_count toks)) as [Hlen|Hlen].
      { by rewrite (text_to_instance_ok _ _ _ toks tg) in He by auto. }
      rewrite (text_to_instance_mismatch _ _ _ toks tg) in He by done.
      split_and!; [done..|congruence].
    + right. rewrite (text_to_instance_targets_omitted _ _ _ toks) in He by done.
      split_and!; [done..|congruence].
  - left. rewrite (text_to_instance_tokenizer_raises _ _ _ _ e') in He by done.
    split; [done|congruence].
Qed.

Lemma text_to_instance_failures_witness :
  let e := AttributeError "'NoneType' object has no attribute 'split'" in
  (truthy (Some ([] : list Token)) = false ∧
   tokenize (_tokenizer default_reader) None = Raise e) ∨
  ∃ toks, scanned default_reader None (Some []) toks ∧
    ((mask_count toks = 0 ∧ e = no_mask_error) ∨
     (mask_count toks ≠ 0 ∧
      ∃ tg, Some ["a"] = Some tg ∧ tg ≠ [] ∧ length tg ≠ mask_count toks ∧
            e = target_count_mismatch_error (mask_count toks) (length tg)) ∨
     (mask_count toks ≠ 0 ∧ Some ["a"] = None ∧
      e = TypeError "'NoneType' object is not iterable")).
Proof.
  intros e.
  apply (text_to_instance_failures default_reader None (Some []) (Some ["a"]) e).
  reflexivity.
Defined.

(** X3. With [targets] omitted, [text_to_instance] never returns a bundle,
    for any reader, sentence and tokens: it raises the tokenizer's
    exception, the no-mask error, or the [TypeError] of line 82. *)
Theorem text_to_instance_targets_omitted_always_raises
    (self : MaskedLanguageModelingReader) (sentence : option string)
    (tokens : option (list Token)) :
  ∃ e, text_to_instance self sentence tokens None = Raise e.
Proof.
  destruct (scanned_cases self sentence tokens) as [[toks Hs] | (e & Hf & He)].
  - destruct (decide (mask_count toks = 0)) as [H0|Hm].
    + exists no_mask_error. by apply (text_to_instance_no_mask _ _ _ _ toks).
    + eexists. by apply (text_to_instance_targets_omitted _ _ _ toks).
  - exists e. by apply text_to_instance_tokenizer_raises.
Qed.

(** ** The shape of a returned bundle *)

Lemma dom_masked_example (self : MaskedLanguageModelingReader)
    (toks : list Token) (tg : list string) :
  dom (masked_example self toks tg)
  = ({[ "tokens"; "mask_positions"; "target_ids" ]} : gset string).
Proof.
  unfold masked_example. cbv zeta.
  rewrite !dom_insert_L, dom_singleton_L. set_solver.
Qed.

(** X4. A returned bundle has exactly the three keys [tokens],
    [mask_positions] and [target_ids]; [target_ids] is a text field over
    fresh tokens built from the target strings alone, and it carries the
    same indexers as the [tokens] field, those of the reader. *)
Theorem text_to_instance_bundle_shape
    (self : MaskedLanguageModelingReader) (sentence : option string)
    (tokens : option (list Token)) (targets : option (list string))
    (inst : gmap string Field) :
  text_to_instance self sentence tokens targets = Ok inst →
  dom inst = ({[ "tokens"; "mask_positions"; "target_ids" ]} : gset string) ∧
  ∃ toks tg,
    targets = Some tg ∧
    inst !! "tokens" = Some (TextField toks (_token_indexers self)) ∧
    inst !! "target_ids"
    = Some (TextField ((λ t, mkToken t None) <$> tg) (_token_indexers self)).
Proof.
  intros (toks & tg & _ & -> & _ & _ & ->)%text_to_instance_ok_inv.
  split; [apply dom_masked_example|].
  exists toks, tg. split_and!; [done| |].
  - apply masked_example_tokens.
  - apply masked_example_target_ids.
Qed.

Lemma text_to_instance_bundle_shape_witness :
  let inst := masked_example default_reader [mask_token] ["a"] in
  dom inst = ({[ "tokens"; "mask_positions"; "target_ids" ]} : gset string) ∧
  ∃ toks tg,
    Some ["a"] = Some tg ∧
    inst !! "tokens" = Some (TextField toks (_token_indexers default_reader)) ∧
    inst !! "target_ids"
    = Some (TextField ((λ t, mkToken t None) <$> tg) (_token_indexers default_reader)).
Proof.
  intros inst.
  apply (text_to_instance_bundle_shape default_reader None
           (Some [mask_token]) (Some ["a"]) inst).
  vm_compute. reflexivity.
Defined.

(** X5. In a returned bundle [mask_positions] is never empty, and
    [target_ids] reads back as the supplied targets, which are either empty
    or exactly as many as the mask positions: a non-empty target list of
    another length is never returned. *)
Theorem text_to_instance_lengths
    (self : MaskedLanguageModelingReader) (sentence : option string)
    (tokens : option (list Token)) (targets : option (list string))
    (inst : gmap string Field) :
  text_to_instance self sentence tokens targets = Ok inst →
  ∃ positions tg,
    field_indices "mask_positions" inst = Some positions ∧
    field_texts "target_ids" inst = Some tg ∧
    targets = Some tg ∧
    positions ≠ [] ∧
    (tg = [] ∨ length tg = length positions).
Proof.
  intros (toks & tg & _ & -> & Hm & Hlen & ->)%text_to_instance_ok_inv.
  exists (mask_indices toks), tg. split_and!.
  - apply field_indices_mask_positions.
  - apply field_texts_target_ids.
  - done.
  - by rewrite mask_indices_nil_iff.
  - by rewrite length_mask_indices.
Qed.

Lemma text_to_instance_lengths_witness :
  let inst := masked_example default_reader [mask_token; word "x"; mask_token] ["a"; "b"] in
  ∃ positions tg,
    field_indices "mask_positions" inst = Some positions ∧
    field_texts "target_ids" inst = Some tg ∧
    Some ["a"; "b"] = Some tg ∧
    positions ≠ [] ∧
    (tg = [] ∨ length tg = length positions).
Proof.
  intros inst.
  apply (text_to_instance_lengths default_reader None
           (Some [mask_token; word "x"; mask_token]) (Some ["a"; "b"]) inst).
  vm_compute. reflexivity.
Defined.

(** ** Construction of the reader *)

(** X6. After [__init__] the reader always has at least one token indexer:
    an omitted and an empty [token_indexers] dictionary are both replaced
    by the default [{"tokens": SingleIdTokenIndexer()}], whatever the other
    arguments are. *)
Theorem init_token_indexers_never_empty
    (tokenizer : option Tokenizer) (lazy : bool) :
  _token_indexers (__init__ tokenizer None lazy)
  = {[ "tokens" := SingleIdTokenIndexer ]} ∧
  _token_indexers (__init__ tokenizer (Some ∅) lazy)
  = {[ "tokens" := SingleIdTokenIndexer ]} ∧
  ∀ token_indexers, ∃ name indexer,
    _token_indexers (__init__ tokenizer token_indexers lazy) !! name = Some indexer.
Proof.
  split_and!; [done|done|].
  intros [m|]; simpl.
  - case_bool_decide as Hd.
    + exists "tokens", SingleIdTokenIndexer. by rewrite lookup_singleton_eq.
    + apply map_choose. by rewrite <- dom_empty_iff_L.
  - exists "tokens", SingleIdTokenIndexer. by rewrite lookup_singleton_eq.
Qed.

(** ** The scan *)



Lemma filter_enum_texts (k : nat) (l1 l2 : list Token) :
  text <$> l1 = text <$> l2 →
  (filter (λ it : nat * Token, text it.2 = MASK) (zip (seq k (length l1)) l1)).*1
  = (filter (λ it : nat * Token, text it.2 = MASK) (zip (seq k (length l2)) l2)).*1.
Proof.
  revert k l2. induction l1 as [|t1 l1 IH]; intros k [|t2 l2] Heq; try done.
  simpl in Heq. injection Heq as Ht Hl.
  simpl. rewrite !filter_cons. simpl. rewrite <- Ht.
  pose proof (IH (S k) l2 Hl) as HS.
  case_decide; rewrite ?fmap_cons; simpl; by rewrite HS.
Qed.

(** X9. [text_to_instance] reads nothing of a token but its text: two
    supplied token sequences with the same texts (and any other
    annotations) give the same error, or bundles with the same mask
    positions, the same token texts and the same [target_ids] field. *)
Theorem text_to_instance_reads_text_only
    (self : MaskedLanguageModelingReader) (sentence : option string)
    (toks1 toks2 : list Token) (targets : option (list string)) :
  toks1 ≠ [] →
  text <$> toks1 = text <$> toks2 →
  match text_to_instance self sentence (Some toks1) targets,
        text_to_instance self sentence (Some toks2) targets with
  | Ok inst1, Ok inst2 =>
      field_indices "mask_positions" inst1 = field_indices "mask_positions" inst2 ∧
      field_texts "tokens" inst1 = field_texts "tokens" inst2 ∧
      inst1 !! "target_ids" = inst2 !! "target_ids"
  | Raise e1, Raise e2 => e1 = e2
  | _, _ => False
  end.
Proof.
  intros Hne Htxt.
  assert (toks2 ≠ []) as Hne2.
  { intros ->. by destruct toks1. }
  assert (mask_indices toks1 = mask_indices toks2) as Hidx.
  { by apply filter_enum_texts. }
  assert (mask_count toks1 = mask_count toks2) as Hcnt.
  { by rewrite <- !length_mask_indices, Hidx. }
  pose proof (scanned_supplied self sentence _ Hne) as Hs1.
  pose proof (scanned_supplied self sentence _ Hne2) as Hs2.
  destruct (decide (mask_count toks1 = 0)) as [H0|Hm].
  { rewrite (text_to_instance_no_mask _ _ _ _ toks1) by done.
    by rewrite (text_to_instance_no_mask _ _ _ _ toks2) by congruence. }
  destruct targets as [tg|]; cycle 1.
  { rewrite (text_to_instance_targets_omitted _ _ _ toks1) by done.
    by rewrite (text_to_instance_targets_omitted _ _ _ toks2) by congruence. }
  destruct (decide (tg = [] ∨ length tg = mask_count toks1)) as [Hok|Hbad].
  - rewrite (text_to_instance_ok _ _ _ toks1 tg) by done.
    rewrite (text_to_instance_ok _ _ _ toks2 tg); cycle 1; [done|congruence| |].
    { destruct Hok; [by left|right; congruence]. }
    rewrite !field_indices_mask_positions, !field_texts_tokens.
    rewrite !masked_example_target_ids. by rewrite Hidx, Htxt.
  - rewrite (text_to_instance_mismatch _ _ _ toks1 tg); [|done|done|tauto|tauto].
    rewrite (text_to_instance_mismatch _ _ _ toks2 tg); [|done|congruence|tauto|].
    + by rewrite Hcnt.
    + rewrite <- Hcnt. tauto.
Qed.

Lemma text_to_instance_reads_text_only_witness :
  match text_to_instance default_reader None
          (Some [mkToken "[MASK]" (Some 0); mkToken "x" (Some 7)]) (Some ["a"]),
        text_to_instance default_reader None
          (Some [mask_token; word "x"]) (Some ["a"]) with
  | Ok inst1, Ok inst2 =>
      field_indices "mask_positions" inst1 = field_indices "mask_positions" inst2 ∧
      field_texts "tokens" inst1 = field_texts "tokens" inst2 ∧
      inst1 !! "target_ids" = inst2 !! "target_ids"
  | Raise e1, Raise e2 => e1 = e2
  | _, _ => False
  end.
Proof.
  apply (text_to_instance_reads_text_only default_reader None
           [mkToken "[MASK]" (Some 0); mkToken "x" (Some 7)]
           [mask_token; word "x"] (Some ["a"])).
  - discriminate.
  - reflexivity.
Defined.
